(** * ContextualException: frame chains, merging and rendering

    A shallow embedding of [src/ContextualException/ContextualException.hpp]
    and the properties of its frame-chain model.

    Conventions of the embedding:
    - [std::string] is [string]; a [const char*] is the [string] of the
      characters in front of its terminator (see [c_str]);
    - [int] is a [Z] in the range of module [Int]; the one place where the code
      computes on an [int] ([NormalizeChildDepth]) has its conversion and
      its addition written out with the wrap-around of a 32-bit target;
    - [size_t] indices of a [std::vector] are [nat];
    - a member function that mutates [*this] is a function from the object
      before the call to the object after it; an operation whose behaviour the
      language leaves undefined returns [Undef];
    - objects that callers hold by pointer or reference live in a [heap]
      ([AppendException_at], [SafeChain]), so that aliasing is visible. *)

From Stdlib Require Import ZArith String Ascii DecimalString.
From stdpp Require Import base option list gmap strings.

Local Open Scope Z_scope.

(** ** Results of operations with preconditions *)

Inductive undefined : Set :=
| NullDereference      (* [p->member] with [p == nullptr] *)
| InvalidPointer       (* a pointer or reference to no live object *)
| OverlappingRange.    (* [v.insert(pos, first, last)] with [first], [last] into [v] *)

Inductive res (A : Type) : Type :=
| Ok (a : A)
| Undef (u : undefined).
Arguments Ok {A} a.
Arguments Undef {A} u.

#[global] Instance res_ret : MRet res := fun A a => Ok a.

#[global] Instance res_bind : MBind res := fun A B k r =>
  match r with
  | Ok a => k a
  | Undef u => Undef u
  end.

(** ** The [int] type *)

Module Int.
(** [INT_MAX] *)
Definition max : Z := 2 ^ 31 - 1.

(** The value of [z] reduced to the 32-bit two's complement range. *)
Definition wrap (z : Z) : Z := (z + 2 ^ 31) mod 2 ^ 32 - 2 ^ 31.

(** [static_cast<int>(n)] for a [size_t] [n]. *)
Definition of_size_t (n : nat) : Z := wrap (Z.of_nat n).

(** [a + b] on [int]. *)
Definition add (a b : Z) : Z := wrap (a + b).
End Int.

(** ** Strings and output streams *)

(** The characters of a buffer that a reader of the [const char*] sees: the
    ones in front of the first terminator. *)
Fixpoint c_str (s : string) : string :=
  match s with
  | EmptyString => EmptyString
  | String c s' => if Ascii.eqb c Ascii.zero then EmptyString else String c (c_str s')
  end.

(** The digits that [operator<<] writes for an [int] (decimal base, no
    grouping, the state of a fresh [std::ostringstream] in the classic
    locale). *)
Definition show_int (n : Z) : string := NilZero.string_of_int (Z.to_int n).

(** A [std::ostringstream] is the text written to it so far. *)
Definition ostringstream : Type := string.

Definition ostringstream_new : ostringstream := EmptyString.

Class Put (A : Type) := put : ostringstream -> A -> ostringstream.

#[global] Instance Put_string : Put string := fun os s => os +:+ s.
#[global] Instance Put_int : Put Z := fun os n => os +:+ show_int n.

Notation "os << x" := (put os x) (at level 50, left associativity).

Definition str (os : ostringstream) : string := os.

(** The character ['\n'] and the literal ["\n    "] that starts the line of a
    child frame. *)
Definition LF : ascii := Ascii.ascii_of_nat 10.
Definition newline_indent : string := String LF "    ".

(** [for (size_t ii = 0; ii < n; ++ii) body(ii)], where the body does not
    assign [ii] or [n]: [count] iterations are left and the next index
    is [ii]. *)
Fixpoint for_from {S : Type} (count ii : nat) (body : nat -> S -> S) (s : S) : S :=
  match count with
  | O => s
  | Datatypes.S count' => for_from count' (Datatypes.S ii) body (body ii s)
  end.

Definition for_upto {S : Type} (n : nat) (body : nat -> S -> S) (s : S) : S :=
  for_from n 0 body s.

(** ** Frames *)

Record Frame : Type := mkFrame {
  message : string;
  code : Z;
  file : string;
  line : Z;
  function : string;
  depth : Z
}.

(** [Frame()] *)
Definition Frame_default : Frame :=
  {| message := ""; code := 0; file := ""; line := 0; function := ""; depth := 0 |}.

(** [Frame(message, code, file, line, function)] *)
Definition Frame_new (message : string) (code : Z) (file : string) (line : Z)
    (function : string) : Frame :=
  {| message := message; code := code; file := file; line := line;
     function := function; depth := 0 |}.

Definition set_message (m : string) (f : Frame) : Frame :=
  {| message := m; code := code f; file := file f; line := line f;
     function := function f; depth := depth f |}.

Definition set_depth (d : Z) (f : Frame) : Frame :=
  {| message := message f; code := code f; file := file f; line := line f;
     function := function f; depth := d |}.

(** ** The exception object *)

Record ContextualException : Type := mkContextualException {
  base_frame_ : Frame;
  child_frames_ : list Frame;
  error_message_ : string
}.

(** What a [const std::exception&] can refer to: an object whose dynamic type
    is [ContextualException], or any other exception, of which only the text
    behind its [what()] matters here. *)
Inductive std_exception : Type :=
| contextual (e : ContextualException)
| other (what_text : string).

(** [dynamic_cast<const ContextualException*>(&exception)]; [None] is the
    null pointer. *)
Definition dynamic_cast (exception : std_exception) : option ContextualException :=
  match exception with
  | contextual e => Some e
  | other _ => None
  end.

Definition with_base_frame (f : Frame) (e : ContextualException) : ContextualException :=
  {| base_frame_ := f; child_frames_ := child_frames_ e;
     error_message_ := error_message_ e |}.

Definition with_child_frames (l : list Frame) (e : ContextualException) : ContextualException :=
  {| base_frame_ := base_frame_ e; child_frames_ := l;
     error_message_ := error_message_ e |}.

Definition with_error_message (s : string) (e : ContextualException) : ContextualException :=
  {| base_frame_ := base_frame_ e; child_frames_ := child_frames_ e;
     error_message_ := s |}.

(** *** Private member functions *)

Definition GetFrameMessage (frame : Frame) : string :=
  let stream := ostringstream_new in
  let stream := stream << file frame << ":"%string << line frame << " | "%string
                       << function frame << "() | "%string in
  let stream :=
    if bool_decide (0 <> code frame)
    then stream << "[code="%string << code frame << "] "%string
    else stream in
  let stream := stream << message frame in
  str stream.

Definition SetBaseFrame (message : string) (code : Z) (file : string) (line : Z)
    (function : string) (this : ContextualException) : ContextualException :=
  with_base_frame (Frame_new message code file line function) this.

Definition AssignErrorMessage (this : ContextualException) : ContextualException :=
  with_error_message (GetFrameMessage (base_frame_ this)) this.

Definition IsContextualException (exception : std_exception) : bool :=
  match dynamic_cast exception with
  | Some _ => true
  | None => false
  end.

Definition AppendFramesFrom (exception : std_exception) (this : ContextualException)
    : res ContextualException :=
  match dynamic_cast exception with
  | None => Undef NullDereference
  | Some origin_exception =>
      let this := with_child_frames
                    (child_frames_ this ++ [base_frame_ origin_exception]) this in
      let this := with_child_frames
                    (child_frames_ this ++ child_frames_ origin_exception) this in
      Ok this
  end.

Definition NormalizeChildDepth (this : ContextualException) : ContextualException :=
  let size_frames := length (child_frames_ this) in
  with_child_frames
    (for_upto size_frames
       (fun ii frames => alter (set_depth (Int.add (Int.of_size_t ii) 1)) ii frames)
       (child_frames_ this))
    this.

(** [what()] of the object a [const std::exception&] refers to, as the text
    its reader sees. *)
Definition what (this : ContextualException) : string := c_str (error_message_ this).

Definition exception_what (exception : std_exception) : string :=
  match exception with
  | contextual e => what e
  | other w => c_str w
  end.

Definition WrapOtherException (exception : std_exception) (this : ContextualException)
    : ContextualException :=
  let frame := base_frame_ this in
  if bool_decide (message frame = ""%string)
  then with_base_frame (set_message (exception_what exception) frame) this
  else
    let frame := set_message (message frame +:+ ", ") frame in
    let frame := set_message (message frame +:+ exception_what exception) frame in
    with_base_frame frame this.

Definition WrapException (exception : std_exception) (this : ContextualException)
    : res ContextualException :=
  this ← (if IsContextualException exception
          then AppendFramesFrom exception this
          else Ok (WrapOtherException exception this));
  Ok (NormalizeChildDepth this).

(** *** Constructors *)

(** [ContextualException() {}]: every member default-initialised.  This is
    also the state in which the body of each other constructor starts. *)
Definition Construct_default : ContextualException :=
  {| base_frame_ := Frame_default; child_frames_ := []; error_message_ := "" |}.

Definition Construct (message file : string) (line : Z) (function : string)
    : ContextualException :=
  let default_code := 0 in
  let this := Construct_default in
  let this := SetBaseFrame message default_code file line function this in
  AssignErrorMessage this.

Definition Construct_code (message : string) (code : Z) (file : string) (line : Z)
    (function : string) : ContextualException :=
  let this := Construct_default in
  let this := SetBaseFrame message code file line function this in
  AssignErrorMessage this.

Definition Construct_wrap (message : string) (exception : std_exception)
    (file : string) (line : Z) (function : string) : res ContextualException :=
  let default_code := 0 in
  let this := Construct_default in
  let this := SetBaseFrame message default_code file line function this in
  this ← WrapException exception this;
  Ok (AssignErrorMessage this).

Definition Construct_code_wrap (message : string) (code : Z) (exception : std_exception)
    (file : string) (line : Z) (function : string) : res ContextualException :=
  let this := Construct_default in
  let this := SetBaseFrame message code file line function this in
  this ← WrapException exception this;
  Ok (AssignErrorMessage this).

(** *** Public member functions *)

Definition Message (this : ContextualException) : string := message (base_frame_ this).
Definition Code (this : ContextualException) : Z := code (base_frame_ this).
Definition File (this : ContextualException) : string := file (base_frame_ this).
Definition Line (this : ContextualException) : Z := line (base_frame_ this).
Definition Function (this : ContextualException) : string := function (base_frame_ this).

Definition DetailedErrorMessage (this : ContextualException) : string :=
  let stream := ostringstream_new in
  let stream := stream << error_message_ this in
  let size_frames := length (child_frames_ this) in
  let stream :=
    for_upto size_frames
      (fun ii stream =>
         match child_frames_ this !! ii with
         | Some frame => stream << newline_indent << GetFrameMessage frame
         | None => stream (* not taken: [ii < size_frames] *)
         end)
      stream in
  str stream.

(** [exception] is a [const ContextualException&]; it reaches
    [AppendFramesFrom] converted to [const std::exception&]. *)
Definition AppendException (exception : ContextualException) (this : ContextualException)
    : res ContextualException :=
  this ← AppendFramesFrom (contextual exception) this;
  Ok (NormalizeChildDepth this).

(** ** [namespace contextual_exception::anonymous] *)

Definition Make (file : string) (line : Z) (function : string) (message : string)
    : ContextualException :=
  Construct message file line function.

Definition Make_code (file : string) (line : Z) (function : string) (message : string)
    (code : Z) : ContextualException :=
  Construct_code message code file line function.

Definition Wrap (file : string) (line : Z) (function : string) (message : string)
    (exception : std_exception) : res ContextualException :=
  Construct_wrap message exception file line function.

Definition Wrap_code (file : string) (line : Z) (function : string) (message : string)
    (code : Z) (exception : std_exception) : res ContextualException :=
  Construct_code_wrap message code exception file line function.

(** ** Objects held by pointer or reference

    A caller of [SafeChain] passes a [ContextualException*], and a caller of
    [AppendException] two objects of its own.  Such objects are cells of a heap
    indexed by location; a pointer is an optional location, [None] being
    [nullptr]. *)

Abbreviation loc := nat (only parsing).
Abbreviation heap := (gmap nat ContextualException) (only parsing).

(** [this->AppendException(exception)] for two objects of the caller.  With
    [&exception == this] the range handed to [child_frames_.insert] lies in
    the vector that is being extended, which the library leaves undefined. *)
Definition AppendException_at (this exception : loc) (h : heap) : res heap :=
  match h !! this, h !! exception with
  | Some self, Some argument =>
      if bool_decide (this = exception) then Undef OverlappingRange
      else self' ← AppendException argument self; Ok (<[this := self']> h)
  | _, _ => Undef InvalidPointer
  end.

(** The class declares a destructor, hence has no move constructor and no
    move assignment: the initialisation of [lower_exception] is a copy
    and the temporary is copy-assigned to [*p].  [lower_exception] is a local
    object, distinct from [*p]. *)
Definition SafeChain (file : string) (line : Z) (function : string) (message : string)
    (source_exception_or_null : option loc) (h : heap) : res (option loc * heap) :=
  match source_exception_or_null with
  | None => Ok (None, h)
  | Some p =>
      match h !! p with
      | None => Undef InvalidPointer
      | Some source =>
          let lower_exception := source in
          let h := <[p := Construct message file line function]> h in
          match h !! p with
          | None => Undef InvalidPointer
          | Some source =>
              source ← AppendException lower_exception source;
              Ok (Some p, <[p := source]> h)
          end
      end
  end.

Definition SafeChain_code (file : string) (line : Z) (function : string)
    (message : string) (code : Z)
    (source_exception_or_null : option loc) (h : heap) : res (option loc * heap) :=
  match source_exception_or_null with
  | None => Ok (None, h)
  | Some p =>
      match h !! p with
      | None => Undef InvalidPointer
      | Some source =>
          let lower_exception := source in
          let h := <[p := Construct_code message code file line function]> h in
          match h !! p with
          | None => Undef InvalidPointer
          | Some source =>
              source ← AppendException lower_exception source;
              Ok (Some p, <[p := source]> h)
          end
      end
  end.

(** [SAFE_CHAIN_CONTEXTUAL_EXCEPTION_TO(message, exception_ptr)] and
    [SAFE_CHAIN_CONTEXTUAL_EXCEPTION_TO(message, code, exception_ptr)]: the
    pointer that [SafeChain] returns is assigned to the variable
    [exception_ptr].  The pair is that variable and the heap after the
    statement. *)
Definition SAFE_CHAIN_CONTEXTUAL_EXCEPTION_TO (file : string) (line : Z)
    (function : string) (message : string) (exception_ptr : option loc) (h : heap)
    : res (option loc * heap) :=
  '(returned, h) ← SafeChain file line function message exception_ptr h;
  let exception_ptr := returned in
  Ok (exception_ptr, h).

Definition SAFE_CHAIN_CONTEXTUAL_EXCEPTION_TO_code (file : string) (line : Z)
    (function : string) (message : string) (code : Z) (exception_ptr : option loc)
    (h : heap) : res (option loc * heap) :=
  '(returned, h) ← SafeChain_code file line function message code exception_ptr h;
  let exception_ptr := returned in
  Ok (exception_ptr, h).

(** ** Vocabulary of the properties *)

(** What a frame records, without its position in a chain. *)
Definition content (f : Frame) : string * Z * string * Z * string :=
  (message f, code f, file f, line f, function f).

(** The depth that [NormalizeChildDepth] stores at index [ii]. *)
Definition renumber (ii : nat) (f : Frame) : Frame :=
  set_depth (Int.add (Int.of_size_t ii) 1) f.

(** The one-line summary format. *)
Definition summary (file : string) (line : Z) (function : string) (code : Z)
    (message : string) : string :=
  file +:+ ":" +:+ show_int line +:+ " | " +:+ function +:+ "() | "
    +:+ (if bool_decide (code = 0) then "" else "[code=" +:+ show_int code +:+ "] ")
    +:+ message.

(** The message of the base frame after an exception of another kind was
    folded into it. *)
Definition folded_message (message : string) (exception : std_exception) : string :=
  if bool_decide (message = ""%string) then exception_what exception
  else message +:+ ", " +:+ exception_what exception.

(** One indented line per frame, each after a line break. *)
Fixpoint indented_lines (frames : list Frame) : string :=
  match frames with
  | [] => ""
  | f :: frames => newline_indent +:+ GetFrameMessage f +:+ indented_lines frames
  end.

(** The lines of a text: its pieces between line feeds. *)
Fixpoint lines (s : string) : list string :=
  match s with
  | EmptyString => [EmptyString]
  | String c s' =>
      if Ascii.eqb c LF then EmptyString :: lines s'
      else match lines s' with
           | [] => [String c EmptyString]
           | l :: ls => String c l :: ls
           end
  end.

(** The text contains no line feed. *)
Fixpoint one_line (s : string) : Prop :=
  match s with
  | EmptyString => True
  | String c s' => c <> LF /\ one_line s'
  end.

(** No text of the frame contains a line feed. *)
Definition frame_one_line (f : Frame) : Prop :=
  one_line (message f) /\ one_line (file f) /\ one_line (function f).

(** A test for [one_line], to decide it on given texts. *)
Definition one_lineb (s : string) : bool :=
  forallb (fun ch => negb (Ascii.eqb ch LF)) (list_ascii_of_string s).

Definition frame_one_lineb (f : Frame) : bool :=
  one_lineb (message f) && one_lineb (file f) && one_lineb (function f).

(** How an object came to be: by the default constructor or by one of the
    constructors that take arguments, and then by calls of
    [AppendException] on it, with any argument. *)
Inductive origin : Set := by_default | by_arguments.

Inductive reachable : origin -> ContextualException -> Prop :=
| reach_default :
    reachable by_default Construct_default
| reach_Construct message file line function :
    reachable by_arguments (Construct message file line function)
| reach_Construct_code message code file line function :
    reachable by_arguments (Construct_code message code file line function)
| reach_Construct_wrap message exception file line function this :
    Construct_wrap message exception file line function = Ok this ->
    reachable by_arguments this
| reach_Construct_code_wrap message code exception file line function this :
    Construct_code_wrap message code exception file line function = Ok this ->
    reachable by_arguments this
| reach_AppendException o this exception this' :
    reachable o this ->
    AppendException exception this = Ok this' ->
    reachable o this'.

(** ** The errors of the examples *)

(** Four errors raised at four places. *)
Definition open_failed : ContextualException := Make "db.cc" 10 "Open" "open failed".
Definition init_failed : ContextualException := Make "main.cc" 5 "Main" "init failed".
Definition read_failed : ContextualException := Make_code "io.cc" 42 "Read" "read failed" 5.
Definition sync_failed : ContextualException := Make "fs.cc" 77 "Sync" "sync failed".

(** [init_failed] after [open_failed] was merged into it, and after
    [read_failed] was merged into that. *)
Definition merged_once : ContextualException :=
  with_child_frames [renumber 0 (base_frame_ open_failed)] init_failed.

Definition merged_twice : ContextualException :=
  with_child_frames
    [renumber 0 (base_frame_ open_failed); renumber 1 (base_frame_ read_failed)]
    init_failed.

(** An error whose message holds a line feed: a parser's two-line report
    folded into the base frame by [Wrap]. *)
Definition parse_report : string := "bad token" +:+ String LF "" +:+ "at line 3".

Definition load_failed : ContextualException :=
  {| base_frame_ := Frame_new ("load failed, " +:+ parse_report) 0 "cfg.cc" 3 "Load";
     child_frames_ := [];
     error_message_ := "cfg.cc:3 | Load() | load failed, " +:+ parse_report |}.

(** Two objects of a caller: [init_failed] at 0 and [open_failed] at 1. *)
Definition two_errors : gmap nat ContextualException :=
  <[0%nat := init_failed]> (<[1%nat := open_failed]> ∅).

(** ** The macros

    [__FILE__], [__LINE__] and [__FUNCTION__] are what the compiler puts at
    the place of the expansion; they are parameters here. *)

(** [strrchr(s, c)]: the last occurrence of [c] in the text [s], as the rest
    of the text from there on, or [None] for the null pointer.  The
    terminator counts as part of the text. *)
Fixpoint strrchr (s : string) (c : ascii) : option string :=
  match s with
  | EmptyString => if Ascii.eqb c Ascii.zero then Some EmptyString else None
  | String a s' =>
      match strrchr s' c with
      | Some p => Some p
      | None => if Ascii.eqb a c then Some s else None
      end
  end.

(** [p + 1] for a pointer [p] into a text. *)
Definition next_char (p : string) : string :=
  match p with
  | EmptyString => EmptyString
  | String _ p' => p'
  end.

Definition slash : ascii := Ascii.ascii_of_nat 47.
Definition backslash : ascii := Ascii.ascii_of_nat 92.

(** [__FILENAME__]; [windows] says which branch of the [#if] is compiled. *)
Definition FILENAME (windows : bool) (FILE : string) : string :=
  if windows
  then match strrchr FILE backslash with
       | Some p => next_char p
       | None => FILE
       end
  else match strrchr FILE slash with
       | Some p => next_char p
       | None => FILE
       end.



(** The two macros between which [SAFE_CHAIN_CONTEXTUAL_EXCEPTION_TO]
    chooses. *)
Inductive chain_macro : Set :=
| CHAIN_CONTEXTUAL_EXCEPTION_WITH_CODE
| CHAIN_CONTEXTUAL_EXCEPTION_WITHOUT_CODE.

(** [__CONTEXTUAL_GET_MACRO_ARGUMENTS_COUNT(_1, _2, _3, COUNT, ...)] expands
    to its fourth argument; with fewer arguments there is no expansion. *)
Definition CONTEXTUAL_GET_MACRO_ARGUMENTS_COUNT {T : Type} (arguments : list T) : option T :=
  arguments !! 3%nat.

(** [__CHOOSE_CHAIN_CONTEXTUAL_EXCEPTION_MACRO(__VA_ARGS__)]: the arguments
    of the caller, then the names of the two macros. *)
Definition CHOOSE_CHAIN_CONTEXTUAL_EXCEPTION_MACRO {T : Type} (VA_ARGS : list T)
    : option (T + chain_macro) :=
  CONTEXTUAL_GET_MACRO_ARGUMENTS_COUNT
    ((inl <$> VA_ARGS) ++ [inr CHAIN_CONTEXTUAL_EXCEPTION_WITH_CODE;
                           inr CHAIN_CONTEXTUAL_EXCEPTION_WITHOUT_CODE]).

(** ** More vocabulary *)

(** The character [c] does not occur in the text. *)
Fixpoint absent (c : ascii) (s : string) : Prop :=
  match s with
  | EmptyString => True
  | String a s' => a <> c /\ absent c s'
  end.

(** The character after which [__FILENAME__] looks for the file name. *)
Definition separator (windows : bool) : ascii :=
  if windows then backslash else slash.

(** A place of a call of [SAFE_CHAIN_CONTEXTUAL_EXCEPTION] and its message. *)
Record chain_site : Type := mkChainSite {
  site_file : string;
  site_line : Z;
  site_function : string;
  site_message : string
}.

Definition site_frame (s : chain_site) : Frame :=
  Frame_new (site_message s) 0 (site_file s) (site_line s) (site_function s).

(** The calls of [SafeChain] on one pointer that a chain of callers makes
    while an error travels up, innermost caller first. *)
Fixpoint SafeChain_through (sites : list chain_site) (p : option loc) (h : heap)
    : res (option loc * heap) :=
  match sites with
  | [] => Ok (p, h)
  | s :: sites =>
      '(p, h) ← SafeChain (site_file s) (site_line s) (site_function s)
                          (site_message s) p h;
      SafeChain_through sites p h
  end.

(** The lines of the frames of the given places, each followed by the line
    break and the indentation of the next line. *)
Fixpoint site_lines (sites : list chain_site) : string :=
  match sites with
  | [] => ""
  | s :: sites =>
      GetFrameMessage (site_frame s) +:+ newline_indent +:+ site_lines sites
  end.

(** ** The embedding at work *)

Example show_int_examples :
  show_int 0 = "0"%string /\ show_int 42 = "42"%string /\ show_int (-7) = "-7"%string.
Proof. repeat split. Qed.

Example int_examples :
  Int.of_size_t 6 = 6 /\ Int.add 6 1 = 7 /\ Int.add Int.max 1 = - 2 ^ 31.
Proof. repeat split. Qed.

Example c_str_examples :
  c_str "abc" = "abc"%string /\ c_str (String "a" (String Ascii.zero "b")) = "a"%string.
Proof. repeat split. Qed.

Example lines_examples :
  lines "ab" = ["ab"%string] /\
  lines (String "a" (String LF "b")) = ["a"%string; "b"%string] /\
  lines (String LF "") = [""%string; ""%string].
Proof. repeat split. Qed.

Lemma load_failed_wrapped :
  Wrap "cfg.cc" 3 "Load" "load failed" (other parse_report) = Ok load_failed.
Proof. reflexivity. Qed.

(** ** Strings *)

Section strings.
Implicit Types a b c : string.

Lemma append_cons ch a b : String ch a +:+ b = String ch (a +:+ b).
Proof. reflexivity. Qed.

Lemma append_nil_r a : a +:+ "" = a.
Proof.
  induction a as [|ch a IH]; [reflexivity|].
  rewrite append_cons, IH. reflexivity.
Qed.

Lemma append_assoc a b c : (a +:+ b) +:+ c = a +:+ (b +:+ c).
Proof.
  induction a as [|ch a IH]; [reflexivity|].
  rewrite !append_cons, IH. reflexivity.
Qed.
End strings.

(** ** The two loops *)

Lemma for_from_alter {A : Type} (g : nat -> A -> A) (todo done : list A) :
  for_from (length todo) (length done) (fun ii l => alter (g ii) ii l) (done ++ todo)
  = done ++ imap (fun i => g (length done + i)%nat) todo.
Proof.
  revert done. induction todo as [|x todo IH]; intros done; [reflexivity|].
  cbn [length for_from].
  assert (Hstep : alter (g (length done)) (length done) (done ++ x :: todo)
                  = (done ++ [g (length done) x]) ++ todo).
  { rewrite <- (Nat.add_0_r (length done)) at 2.
    rewrite alter_app_r, <- (assoc_L (++)). reflexivity. }
  rewrite Hstep.
  replace (S (length done)) with (length (done ++ [g (length done) x]))
    by (rewrite length_app; simpl; lia).
  rewrite IH, <- (assoc_L (++)). cbn [app imap].
  rewrite Nat.add_0_r. do 2 f_equal.
  apply imap_ext. intros i y _. rewrite length_app. simpl. f_equal. lia.
Qed.

Lemma for_upto_alter {A : Type} (g : nat -> A -> A) (l : list A) :
  for_upto (length l) (fun ii l => alter (g ii) ii l) l = imap g l.
Proof. apply (for_from_alter g l []). Qed.

Lemma for_from_lookup (frames todo done : list Frame) (os : ostringstream) :
  frames = done ++ todo ->
  for_from (length todo) (length done)
    (fun ii stream =>
       match frames !! ii with
       | Some frame => stream << newline_indent << GetFrameMessage frame
       | None => stream
       end) os
  = os +:+ indented_lines todo.
Proof.
  revert done os. induction todo as [|f todo IH]; intros done os ->.
  - simpl. rewrite append_nil_r. reflexivity.
  - cbn [length for_from indented_lines].
    rewrite list_lookup_middle by reflexivity.
    replace (S (length done)) with (length (done ++ [f]))
      by (rewrite length_app; simpl; lia).
    rewrite IH by (rewrite <- (assoc_L (++)); reflexivity).
    unfold put, Put_string. rewrite !append_assoc. reflexivity.
Qed.

(** ** What each member function computes *)

(** Projections of updated objects and binds of results that are known. *)
Ltac object_simpl :=
  cbn [child_frames_ base_frame_ error_message_ with_child_frames with_base_frame
       with_error_message AssignErrorMessage SetBaseFrame mbind res_bind] in *.

Lemma Int_add_of_size_t (i : nat) :
  Z.of_nat i + 1 <= Int.max -> Int.add (Int.of_size_t i) 1 = Z.of_nat i + 1.
Proof.
  unfold Int.max, Int.add, Int.of_size_t, Int.wrap. intros Hi.
  rewrite (Z.mod_small (Z.of_nat i + _)) by lia.
  rewrite Z.mod_small; lia.
Qed.

Lemma GetFrameMessage_summary (f : Frame) :
  GetFrameMessage f = summary (file f) (line f) (function f) (code f) (message f).
Proof.
  unfold GetFrameMessage, summary, str, ostringstream_new.
  do 2 case_bool_decide; try (exfalso; lia);
    unfold put, Put_string, Put_int; rewrite !append_assoc; reflexivity.
Qed.

Lemma GetFrameMessage_renumber (i : nat) (f : Frame) :
  GetFrameMessage (renumber i f) = GetFrameMessage f.
Proof. reflexivity. Qed.

Lemma content_renumber (i : nat) (f : Frame) : content (renumber i f) = content f.
Proof. reflexivity. Qed.

Lemma content_imap_renumber (l : list Frame) :
  content <$> imap renumber l = content <$> l.
Proof.
  apply list_eq; intros i.
  rewrite !list_lookup_fmap, list_lookup_imap.
  destruct (l !! i); reflexivity.
Qed.

Lemma indented_lines_imap (g : nat -> Frame -> Frame) (l : list Frame) :
  (forall i f, GetFrameMessage (g i f) = GetFrameMessage f) ->
  indented_lines (imap g l) = indented_lines l.
Proof.
  revert g. induction l as [|f l IH]; intros g Hg; [reflexivity|].
  cbn [imap indented_lines]. rewrite Hg, IH; [reflexivity|].
  intros i f'. apply Hg.
Qed.

Lemma imap_renumber_app_l (l1 l2 : list Frame) :
  imap renumber (imap renumber l1 ++ l2) = imap renumber (l1 ++ l2).
Proof.
  apply list_eq; intros i. rewrite !list_lookup_imap.
  destruct (decide (i < length l1)%nat) as [Hi|Hi].
  - rewrite !lookup_app_l by (rewrite ?length_imap; lia).
    rewrite list_lookup_imap. destruct (l1 !! i); reflexivity.
  - rewrite !lookup_app_r by (rewrite ?length_imap; lia).
    rewrite length_imap. reflexivity.
Qed.

Lemma NormalizeChildDepth_eq (this : ContextualException) :
  NormalizeChildDepth this = with_child_frames (imap renumber (child_frames_ this)) this.
Proof. unfold NormalizeChildDepth. rewrite for_upto_alter. reflexivity. Qed.

Lemma AppendFramesFrom_contextual (origin_exception this : ContextualException) :
  AppendFramesFrom (contextual origin_exception) this
  = Ok (with_child_frames
          (child_frames_ this ++ base_frame_ origin_exception :: child_frames_ origin_exception)
          this).
Proof.
  unfold AppendFramesFrom, with_child_frames. simpl.
  rewrite <- (assoc_L (++)). reflexivity.
Qed.

Lemma AppendException_eq (exception this : ContextualException) :
  AppendException exception this
  = Ok (with_child_frames
          (imap renumber
             (child_frames_ this ++ base_frame_ exception :: child_frames_ exception))
          this).
Proof.
  unfold AppendException. rewrite AppendFramesFrom_contextual. simpl.
  rewrite NormalizeChildDepth_eq. reflexivity.
Qed.

Lemma DetailedErrorMessage_eq (this : ContextualException) :
  DetailedErrorMessage this
  = error_message_ this +:+ indented_lines (child_frames_ this).
Proof.
  unfold DetailedErrorMessage, for_upto, str.
  rewrite (for_from_lookup (child_frames_ this) (child_frames_ this) []) by reflexivity.
  reflexivity.
Qed.

Lemma WrapException_contextual (origin_exception this : ContextualException) :
  WrapException (contextual origin_exception) this
  = Ok (with_child_frames
          (imap renumber
             (child_frames_ this ++ base_frame_ origin_exception :: child_frames_ origin_exception))
          this).
Proof.
  unfold WrapException.
  change (IsContextualException (contextual origin_exception)) with true.
  cbv iota. rewrite AppendFramesFrom_contextual. simpl.
  rewrite NormalizeChildDepth_eq. reflexivity.
Qed.

Lemma WrapException_other (w : string) (this : ContextualException) :
  WrapException (other w) this
  = Ok (with_child_frames (imap renumber (child_frames_ this))
          (WrapOtherException (other w) this)).
Proof.
  unfold WrapException. simpl. rewrite NormalizeChildDepth_eq. do 2 f_equal.
  unfold WrapOtherException. case_bool_decide; reflexivity.
Qed.

Lemma Ok_inj {A : Type} (a b : A) : Ok a = Ok b -> a = b.
Proof. congruence. Qed.

Lemma Construct_wrap_eq message exception file line function :
  Construct_wrap message exception file line function
  = Construct_code_wrap message 0 exception file line function.
Proof. reflexivity. Qed.

Lemma Construct_code_wrap_contextual message code F file line function :
  Construct_code_wrap message code (contextual F) file line function
  = Ok {| base_frame_ := Frame_new message code file line function;
          child_frames_ := imap renumber (base_frame_ F :: child_frames_ F);
          error_message_ := GetFrameMessage (Frame_new message code file line function) |}.
Proof.
  unfold Construct_code_wrap. rewrite WrapException_contextual. reflexivity.
Qed.

Lemma Construct_code_wrap_other msg c w fl ln fn :
  Construct_code_wrap msg c (other w) fl ln fn
  = Ok {| base_frame_ := set_message (folded_message msg (other w))
                           (Frame_new msg c fl ln fn);
          child_frames_ := [];
          error_message_ :=
            GetFrameMessage (set_message (folded_message msg (other w))
                               (Frame_new msg c fl ln fn)) |}.
Proof.
  unfold Construct_code_wrap. rewrite WrapException_other.
  unfold WrapOtherException, folded_message. object_simpl.
  cbn [Frame_new message]. case_bool_decide.
  - reflexivity.
  - unfold set_message; cbn [Frame_new message code file line function depth].
    rewrite append_assoc. reflexivity.
Qed.

(** Case analysis on how a reachable object was last changed, with the
    wrapping constructors in closed form. *)
Ltac wrap_closed_form Hw exception :=
  destruct exception as [?F|?w];
  [ rewrite Construct_code_wrap_contextual in Hw
  | rewrite Construct_code_wrap_other in Hw ];
  apply Ok_inj in Hw; subst.

Ltac reachable_cases H :=
  induction H as [| | |msg exception fl ln fn this Hw
                  |msg c exception fl ln fn this Hw
                  |o this exception this' Hr IH Ha];
  [ | |
  | rewrite Construct_wrap_eq in Hw; wrap_closed_form Hw exception
  | wrap_closed_form Hw exception
  | rewrite AppendException_eq in Ha; apply Ok_inj in Ha; subst ].

(** [SafeChain] on a pointer to an object: the object is replaced by a new
    error whose child frames are the base frame and the child frames of the
    old one. *)
Lemma SafeChain_at_object file line function message p (h : heap) old :
  h !! p = Some old ->
  SafeChain file line function message (Some p) h
  = Ok (Some p,
        <[p := with_child_frames
                 (imap renumber (base_frame_ old :: child_frames_ old))
                 (Construct message file line function)]> h).
Proof.
  intros Hp. unfold SafeChain. rewrite Hp, lookup_insert_eq, AppendException_eq.
  cbn [mbind res_bind]. rewrite insert_insert_eq. reflexivity.
Qed.

(** ** Reachable objects *)

Lemma reachable_base_depth o e : reachable o e -> depth (base_frame_ e) = 0.
Proof.
  intros H. reachable_cases H; try reflexivity. exact IH.
Qed.

Lemma reachable_child_frames o e :
  reachable o e -> exists l, child_frames_ e = imap renumber l.
Proof.
  intros H. reachable_cases H; try (by exists []);
    cbn [child_frames_ with_child_frames]; eauto.
Qed.

Lemma reachable_error_message e :
  reachable by_arguments e -> error_message_ e = GetFrameMessage (base_frame_ e).
Proof.
  intros H. remember by_arguments as o eqn:Ho.
  reachable_cases H; try discriminate; try reflexivity.
  apply IH. reflexivity.
Qed.

Lemma merged_twice_reachable : reachable by_arguments merged_twice.
Proof.
  apply (reach_AppendException by_arguments merged_once read_failed); [|reflexivity].
  apply (reach_AppendException by_arguments init_failed open_failed); [|reflexivity].
  apply (reach_Construct "init failed" "main.cc" 5 "Main").
Qed.

(** ** Lines of a text *)

Lemma one_line_append (a b : string) : one_line a -> one_line b -> one_line (a +:+ b).
Proof.
  intros Ha Hb. induction a as [|ch a IH]; [exact Hb|].
  destruct Ha as [Hch Ha]. rewrite append_cons. split; [exact Hch|exact (IH Ha)].
Qed.

Lemma one_line_digits (d : Decimal.uint) : one_line (NilEmpty.string_of_uint d).
Proof.
  induction d; simpl; try exact I; (split; [vm_compute; discriminate|assumption]).
Qed.

Lemma one_line_show_int (n : Z) : one_line (show_int n).
Proof.
  unfold show_int, NilZero.string_of_int, NilZero.string_of_uint.
  destruct (Z.to_int n) as [d|d]; destruct d;
    repeat (try exact I; try apply one_line_digits; simpl;
            try (split; [vm_compute; discriminate|])).
Qed.

Lemma one_line_GetFrameMessage (f : Frame) :
  frame_one_line f -> one_line (GetFrameMessage f).
Proof.
  intros (Hm & Hf & Hn). rewrite GetFrameMessage_summary. unfold summary.
  repeat (apply one_line_append); try assumption; try apply one_line_show_int;
    try (repeat split; vm_compute; discriminate).
  case_bool_decide; [exact I|].
  repeat (apply one_line_append); try apply one_line_show_int;
    repeat split; vm_compute; discriminate.
Qed.

Lemma one_lineb_correct (s : string) : one_lineb s = true -> one_line s.
Proof.
  unfold one_lineb. induction s as [|ch s IH]; [intros _; exact I|]. simpl.
  intros [Hch Hs]%andb_prop. split; [|exact (IH Hs)].
  apply Ascii.eqb_neq. destruct (Ascii.eqb ch LF); [discriminate|reflexivity].
Qed.

Lemma frame_one_lineb_correct (f : Frame) : frame_one_lineb f = true -> frame_one_line f.
Proof.
  unfold frame_one_lineb, frame_one_line.
  intros [[Hm Hf]%andb_prop Hn]%andb_prop.
  split; [|split]; apply one_lineb_correct; assumption.
Qed.

Lemma lines_append_LF (a b : string) :
  one_line a -> lines (a +:+ String LF b) = a :: lines b.
Proof.
  induction a as [|ch a IH]; intros Ha; [reflexivity|].
  destruct Ha as [Hch Ha]. rewrite append_cons. cbn [lines].
  apply Ascii.eqb_neq in Hch. rewrite Hch, (IH Ha). reflexivity.
Qed.

Lemma lines_one_line (a : string) : one_line a -> lines a = [a].
Proof.
  induction a as [|ch a IH]; intros Ha; [reflexivity|].
  destruct Ha as [Hch Ha]. cbn [lines].
  apply Ascii.eqb_neq in Hch. rewrite Hch, (IH Ha). reflexivity.
Qed.

Lemma lines_indented (a : string) (frames : list Frame) :
  one_line a -> Forall frame_one_line frames ->
  lines (a +:+ indented_lines frames)
  = a :: map (fun f => "    " +:+ GetFrameMessage f) frames.
Proof.
  intros Ha Hfs. revert a Ha.
  induction Hfs as [|f frames Hf _ IH]; intros a Ha.
  - simpl. rewrite append_nil_r. apply lines_one_line, Ha.
  - cbn [indented_lines map]. unfold newline_indent.
    rewrite append_cons, lines_append_LF by exact Ha.
    rewrite <- append_assoc, IH; [reflexivity|].
    apply one_line_append; [repeat split; vm_compute; discriminate|].
    apply one_line_GetFrameMessage, Hf.
Qed.

(** ** Merging keeps order *)

(** C1, as stated, fails twice.  Merged into a fresh error, the frames of
    [open_failed] and [read_failed] arrive in order but renumbered, so they
    are not equal to the base frames they were copied from; and merged into
    an error that already has a child frame, they come after it. *)
Lemma C1_counterexample :
  (exists A1 A2,
     AppendException open_failed init_failed = Ok A1 /\
     AppendException read_failed A1 = Ok A2 /\
     content <$> child_frames_ A2
     = content <$> ([base_frame_ open_failed] ++ child_frames_ open_failed
                      ++ [base_frame_ read_failed] ++ child_frames_ read_failed) /\
     child_frames_ A2
     <> [base_frame_ open_failed] ++ child_frames_ open_failed
          ++ [base_frame_ read_failed] ++ child_frames_ read_failed) /\
  (exists A A1 A2,
     AppendException sync_failed init_failed = Ok A /\
     AppendException open_failed A = Ok A1 /\
     AppendException read_failed A1 = Ok A2 /\
     content <$> child_frames_ A2
     <> content <$> ([base_frame_ open_failed] ++ child_frames_ open_failed
                       ++ [base_frame_ read_failed] ++ child_frames_ read_failed)).
Proof.
  split.
  - do 2 eexists. split; [reflexivity|]. split; [reflexivity|].
    split; [reflexivity|]. vm_compute. discriminate.
  - do 3 eexists. split; [reflexivity|]. split; [reflexivity|].
    split; [reflexivity|]. vm_compute. discriminate.
Qed.

(** C1, amended: for every error A and errors B and C, [AppendException] of
    B and then of C on A succeeds and leaves in A's child frames, in this
    order, the child frames A had, B's base frame, B's child frames, C's base
    frame and C's child frames, each with the depth of its index plus one
    and otherwise unchanged: nothing is reordered, dropped or merged. *)
Theorem C1_merge_twice (A B C : ContextualException) :
  exists A1 A2,
    AppendException B A = Ok A1 /\
    AppendException C A1 = Ok A2 /\
    child_frames_ A2
    = imap renumber (child_frames_ A ++ [base_frame_ B] ++ child_frames_ B
                       ++ [base_frame_ C] ++ child_frames_ C) /\
    content <$> child_frames_ A2
    = content <$> (child_frames_ A ++ [base_frame_ B] ++ child_frames_ B
                     ++ [base_frame_ C] ++ child_frames_ C).
Proof.
  do 2 eexists. split; [apply AppendException_eq|].
  split; [apply AppendException_eq|].
  cbn [child_frames_ with_child_frames].
  rewrite imap_renumber_app_l, <- (assoc_L (++)). cbn [app].
  split; [reflexivity|]. apply content_imap_renumber.
Qed.

(** ** The depth invariant *)

(** C2: for every error reachable through the public interface (a
    constructor, then calls of [AppendException]), the depth of the base
    frame is 0 and the depth of the child frame at index [i] is the [int]
    [static_cast<int>(i) + 1], which is [i + 1] for every index whose [i + 1]
    is an [int]. *)
Theorem C2_depth_invariant (o : origin) (e : ContextualException) :
  reachable o e ->
  depth (base_frame_ e) = 0 /\
  forall (i : nat) (f : Frame),
    child_frames_ e !! i = Some f ->
    depth f = Int.add (Int.of_size_t i) 1 /\
    (Z.of_nat i + 1 <= Int.max -> depth f = Z.of_nat i + 1).
Proof.
  intros Hr. split; [exact (reachable_base_depth o e Hr)|].
  intros i f Hf. destruct (reachable_child_frames o e Hr) as [l Hl].
  rewrite Hl, list_lookup_imap in Hf.
  destruct (l !! i) as [f0|]; [|discriminate].
  injection Hf as <-. split; [reflexivity|].
  intros Hi. simpl. apply Int_add_of_size_t, Hi.
Qed.

Lemma C2_depth_invariant_witness :
  depth (base_frame_ merged_twice) = 0 /\
  exists f, child_frames_ merged_twice !! 1%nat = Some f /\ depth f = 2.
Proof.
  destruct (C2_depth_invariant by_arguments merged_twice merged_twice_reachable)
    as [Hb Hd].
  split; [exact Hb|].
  exists (renumber 1 (base_frame_ read_failed)).
  split; [reflexivity|].
  apply (Hd 1%nat); [reflexivity|]. unfold Int.max. lia.
Defined.

(** ** Rendering of one frame *)

(** C3: for every frame, the one-line rendering ([GetFrameMessage], cached by
    every constructor that takes arguments) is exactly
    [<file>:<line> | <function>() | [code=<code>] <message>], the segment
    [[code=<code>] ] being there iff the code is not 0; and the error created
    with message "disk full", code 28 at io.cc:42 in Flush renders as
    "io.cc:42 | Flush() | [code=28] disk full". *)
Theorem C3_summary_format :
  (forall frame : Frame,
     GetFrameMessage frame
     = file frame +:+ ":" +:+ show_int (line frame) +:+ " | " +:+ function frame
         +:+ "() | "
         +:+ (if bool_decide (code frame = 0) then ""
              else "[code=" +:+ show_int (code frame) +:+ "] ")
         +:+ message frame) /\
  (forall message code file line function,
     error_message_ (Make_code file line function message code)
     = summary file line function code message /\
     error_message_ (Make file line function message)
     = file +:+ ":" +:+ show_int line +:+ " | " +:+ function +:+ "() | " +:+ message) /\
  error_message_ (Make_code "io.cc" 42 "Flush" "disk full" 28)
  = "io.cc:42 | Flush() | [code=28] disk full"%string /\
  what (Make_code "io.cc" 42 "Flush" "disk full" 28)
  = "io.cc:42 | Flush() | [code=28] disk full"%string.
Proof.
  split; [|split; [|split]].
  - intros frame. apply GetFrameMessage_summary.
  - intros message code file line function.
    unfold Make_code, Make, Construct_code, Construct, AssignErrorMessage. simpl.
    rewrite !GetFrameMessage_summary. split; reflexivity.
  - reflexivity.
  - reflexivity.
Qed.

(** ** The detailed message *)

(** C4, as stated, fails on the default-constructed object: its detailed
    message is empty, not the rendering of its base frame. *)
Lemma C4_counterexample :
  DetailedErrorMessage Construct_default
  <> GetFrameMessage (base_frame_ Construct_default)
       +:+ indented_lines (child_frames_ Construct_default).
Proof. vm_compute. discriminate. Qed.

(** C4, amended: for every error made by a constructor that takes arguments
    and then changed by calls of [AppendException], the detailed message is
    the one-line rendering of the base frame followed, for each child frame
    in order, by a line break, four spaces and the one-line rendering of that
    frame; after merging the error "open failed" (db.cc:10, Open) into the
    error "init failed" (main.cc:5, Main) it is
    "main.cc:5 | Main() | init failed", a line break and
    "    db.cc:10 | Open() | open failed". *)
Theorem C4_detailed_message (e : ContextualException) :
  reachable by_arguments e ->
  DetailedErrorMessage e
  = GetFrameMessage (base_frame_ e) +:+ indented_lines (child_frames_ e) /\
  exists E2,
    AppendException open_failed init_failed = Ok E2 /\
    DetailedErrorMessage E2
    = "main.cc:5 | Main() | init failed" +:+ String LF ""
        +:+ "    db.cc:10 | Open() | open failed".
Proof.
  intros Hr. split.
  - rewrite DetailedErrorMessage_eq, (reachable_error_message e Hr). reflexivity.
  - eexists. split; reflexivity.
Qed.

Lemma C4_detailed_message_witness :
  DetailedErrorMessage merged_twice
  = "main.cc:5 | Main() | init failed" +:+ String LF ""
      +:+ "    db.cc:10 | Open() | open failed" +:+ String LF ""
      +:+ "    io.cc:42 | Read() | [code=5] read failed".
Proof.
  destruct (C4_detailed_message merged_twice merged_twice_reachable) as [Hd _].
  rewrite Hd. reflexivity.
Defined.

(** ** Wrapping an exception of another kind *)

(** C5: wrapping an exception that is not a [ContextualException] leaves the
    child frames empty and folds the text of its [what()] into the message
    of the new base frame: [message + ", " + text] when [message] is not
    empty, the text alone when it is; with or without a code.  Wrapping one
    that says "disk err" with message "flush failed" gives the base message
    "flush failed, disk err". *)
Theorem C5_wrap_other_kind :
  (forall file line function message code w,
     let description := exception_what (other w) in
     let folded :=
       if bool_decide (message = ""%string) then description
       else message +:+ ", " +:+ description in
     (exists e, Wrap file line function message (other w) = Ok e /\
                child_frames_ e = [] /\ Message e = folded) /\
     (exists e, Wrap_code file line function message code (other w) = Ok e /\
                child_frames_ e = [] /\ Message e = folded)) /\
  (exists e, Wrap "io.cc" 7 "Flush" "flush failed" (other "disk err") = Ok e /\
             child_frames_ e = [] /\ Message e = "flush failed, disk err"%string).
Proof.
  split.
  - intros file line function message code w description folded.
    unfold Wrap, Wrap_code, Construct_wrap, Construct_code_wrap.
    rewrite !WrapException_other. simpl.
    split; (eexists; split; [reflexivity|]; split; [reflexivity|]);
      unfold Message, WrapOtherException, folded, description; simpl;
      case_bool_decide; simpl; rewrite ?append_assoc; reflexivity.
  - eexists. repeat split.
Qed.

(** ** Wrapping an error of the same kind *)

(** C6, as stated, fails when a text of a frame holds a line feed: wrapping
    [load_failed], which has no child frame, gives a detailed message of
    three lines, not two. *)
Lemma C6_counterexample :
  exists r,
    Wrap "main.cc" 5 "Main" "init failed" (contextual load_failed) = Ok r /\
    lines (DetailedErrorMessage r)
    = ["main.cc:5 | Main() | init failed";
       "    cfg.cc:3 | Load() | load failed, bad token";
       "at line 3"]%string /\
    length (lines (DetailedErrorMessage r))
    <> (1 + 1 + length (child_frames_ load_failed))%nat.
Proof.
  eexists. split; [reflexivity|]. split; [reflexivity|].
  vm_compute. discriminate.
Qed.

(** C6, amended: for every [Wrap], with or without a code, of an error F of
    the same kind that has [k] child frames, where no message, file or
    function text of the new frame or of F's frames holds a line feed, the
    detailed message of the result has exactly [1 + 1 + k] lines: the line of
    the new base frame, then, indented, the line of F's base frame and the
    lines of F's [k] child frames in order. *)
Theorem C6_wrap_same_kind_lines fl ln fn msg c (F : ContextualException) :
  one_line msg -> one_line fl -> one_line fn ->
  frame_one_line (base_frame_ F) ->
  Forall frame_one_line (child_frames_ F) ->
  (exists r,
     Wrap fl ln fn msg (contextual F) = Ok r /\
     base_frame_ r = Frame_new msg 0 fl ln fn /\
     lines (DetailedErrorMessage r)
     = GetFrameMessage (base_frame_ r)
         :: ("    " +:+ GetFrameMessage (base_frame_ F))
         :: map (fun f => "    " +:+ GetFrameMessage f) (child_frames_ F) /\
     length (lines (DetailedErrorMessage r)) = (1 + 1 + length (child_frames_ F))%nat) /\
  (exists r,
     Wrap_code fl ln fn msg c (contextual F) = Ok r /\
     base_frame_ r = Frame_new msg c fl ln fn /\
     lines (DetailedErrorMessage r)
     = GetFrameMessage (base_frame_ r)
         :: ("    " +:+ GetFrameMessage (base_frame_ F))
         :: map (fun f => "    " +:+ GetFrameMessage f) (child_frames_ F) /\
     length (lines (DetailedErrorMessage r)) = (1 + 1 + length (child_frames_ F))%nat).
Proof.
  intros Hmsg Hfl Hfn HF HFs.
  assert (Hgen : forall c0, exists r,
            Construct_code_wrap msg c0 (contextual F) fl ln fn = Ok r /\
            base_frame_ r = Frame_new msg c0 fl ln fn /\
            lines (DetailedErrorMessage r)
            = GetFrameMessage (base_frame_ r)
                :: ("    " +:+ GetFrameMessage (base_frame_ F))
                :: map (fun f => "    " +:+ GetFrameMessage f) (child_frames_ F) /\
            length (lines (DetailedErrorMessage r))
            = (1 + 1 + length (child_frames_ F))%nat).
  { intros c0. eexists. split; [apply Construct_code_wrap_contextual|].
    split; [reflexivity|].
    assert (Hlines : forall r0,
              r0 = {| base_frame_ := Frame_new msg c0 fl ln fn;
                      child_frames_ := imap renumber (base_frame_ F :: child_frames_ F);
                      error_message_ := GetFrameMessage (Frame_new msg c0 fl ln fn) |} ->
              lines (DetailedErrorMessage r0)
              = GetFrameMessage (base_frame_ r0)
                  :: ("    " +:+ GetFrameMessage (base_frame_ F))
                  :: map (fun f => "    " +:+ GetFrameMessage f) (child_frames_ F)).
    { intros r0 ->. rewrite DetailedErrorMessage_eq.
      cbn [error_message_ child_frames_ base_frame_].
      rewrite (indented_lines_imap renumber) by (intros; reflexivity).
      rewrite lines_indented; [reflexivity| |constructor; assumption].
      apply one_line_GetFrameMessage. repeat split; assumption. }
    split; [apply Hlines; reflexivity|].
    rewrite (Hlines _ eq_refl). cbn [length]. rewrite length_map. reflexivity. }
  split; [apply (Hgen 0)|apply (Hgen c)].
Qed.

Lemma C6_wrap_same_kind_lines_witness :
  exists r,
    Wrap "main.cc" 5 "Main" "init failed" (contextual merged_twice) = Ok r /\
    lines (DetailedErrorMessage r)
    = ["main.cc:5 | Main() | init failed";
       "    main.cc:5 | Main() | init failed";
       "    db.cc:10 | Open() | open failed";
       "    io.cc:42 | Read() | [code=5] read failed"]%string /\
    length (lines (DetailedErrorMessage r)) = 4%nat.
Proof.
  destruct (C6_wrap_same_kind_lines "main.cc" 5 "Main" "init failed" 0 merged_twice)
    as [(r & Hw & Hb & Hl & Hn) _].
  - apply one_lineb_correct. reflexivity.
  - apply one_lineb_correct. reflexivity.
  - apply one_lineb_correct. reflexivity.
  - apply frame_one_lineb_correct. reflexivity.
  - constructor; [apply frame_one_lineb_correct; reflexivity|].
    constructor; [apply frame_one_lineb_correct; reflexivity|].
    constructor.
  - exists r. split; [exact Hw|]. split; [|exact Hn].
    rewrite Hl, Hb. reflexivity.
Defined.

(** ** Chaining into an empty slot *)

(** C7: for every message and optional code, [SafeChain] on the null pointer
    returns the null pointer and leaves every object as it was (none is
    created); through [SAFE_CHAIN_CONTEXTUAL_EXCEPTION_TO] the pointer
    variable stays null. *)
Theorem C7_SafeChain_null_is_noop file line function message code (h : heap) :
  SafeChain file line function message None h = Ok (None, h) /\
  SafeChain_code file line function message code None h = Ok (None, h) /\
  SAFE_CHAIN_CONTEXTUAL_EXCEPTION_TO file line function message None h = Ok (None, h) /\
  SAFE_CHAIN_CONTEXTUAL_EXCEPTION_TO_code file line function message code None h
  = Ok (None, h).
Proof. repeat split. Qed.

(** ** What a merge leaves alone *)

(** C8: [this->AppendException(exception)], for two distinct objects of the
    caller, changes the child frames of [*this] and nothing else: the
    argument and every other object are as before, and so are the base frame
    of [*this] (hence [Message], [Code], [File], [Line] and [Function]) and
    its cached one-line rendering. *)
Theorem C8_merge_changes_child_frames_only (h : heap) (this exception : loc)
    (self argument : ContextualException) :
  h !! this = Some self ->
  h !! exception = Some argument ->
  this <> exception ->
  exists self',
    AppendException_at this exception h = Ok (<[this := self']> h) /\
    <[this := self']> h !! exception = Some argument /\
    (forall l : loc, l <> this -> <[this := self']> h !! l = h !! l) /\
    base_frame_ self' = base_frame_ self /\
    error_message_ self' = error_message_ self /\
    what self' = what self /\
    Message self' = Message self /\
    Code self' = Code self /\
    File self' = File self /\
    Line self' = Line self /\
    Function self' = Function self.
Proof.
  intros Hthis Hexception Hne.
  exists (with_child_frames
            (imap renumber
               (child_frames_ self ++ base_frame_ argument :: child_frames_ argument))
            self).
  split.
  - unfold AppendException_at. rewrite Hthis, Hexception.
    rewrite bool_decide_eq_false_2 by exact Hne.
    rewrite AppendException_eq. reflexivity.
  - split.
    + rewrite lookup_insert_ne by exact Hne. exact Hexception.
    + split.
      * intros l Hl. apply lookup_insert_ne. congruence.
      * repeat split.
Qed.

Lemma C8_merge_changes_child_frames_only_witness :
  exists self',
    AppendException_at 0 1 two_errors = Ok (<[0%nat := self']> two_errors) /\
    child_frames_ self' = [renumber 0 (base_frame_ open_failed)] /\
    base_frame_ self' = base_frame_ init_failed /\
    what self' = "main.cc:5 | Main() | init failed"%string /\
    <[0%nat := self']> two_errors !! 1%nat = Some open_failed.
Proof.
  destruct (C8_merge_changes_child_frames_only two_errors 0 1 init_failed open_failed)
    as (self' & Hcall & Harg & _ & Hbase & Hmsg & Hwhat & _).
  - reflexivity.
  - reflexivity.
  - lia.
  - exists self'. split; [exact Hcall|].
    split.
    + unfold AppendException_at in Hcall.
      change (two_errors !! 0%nat) with (Some init_failed) in Hcall.
      change (two_errors !! 1%nat) with (Some open_failed) in Hcall.
      change (AppendException open_failed init_failed) with (Ok merged_once) in Hcall.
      cbn in Hcall. apply Ok_inj in Hcall.
      apply (f_equal (fun m : gmap nat ContextualException => m !! 0%nat)) in Hcall.
      rewrite !lookup_insert_eq in Hcall.
      injection Hcall as <-. reflexivity.
    + split; [exact Hbase|]. split; [rewrite Hwhat; reflexivity|exact Harg].
Defined.

(** ** The unchecked cast *)

(** C9: [AppendFramesFrom] dereferences the result of the cast unchecked,
    so on an exception of another kind it is a null dereference; but every
    public entry point reaches it with a [ContextualException] only: the
    wrapping constructors through the [IsContextualException] test of
    [WrapException], [AppendException] by the type of its parameter.  None
    of them ever dereferences null. *)
Theorem C9_cast_succeeds_when_reached :
  (forall w this, AppendFramesFrom (other w) this = Undef NullDereference) /\
  (forall exception this, exists r, WrapException exception this = Ok r) /\
  (forall message exception file line function,
     exists r, Construct_wrap message exception file line function = Ok r) /\
  (forall message code exception file line function,
     exists r, Construct_code_wrap message code exception file line function = Ok r) /\
  (forall exception this, exists r, AppendException exception this = Ok r) /\
  (forall this exception (h : heap),
     AppendException_at this exception h <> Undef NullDereference) /\
  (forall file line function message code p (h : heap),
     SafeChain file line function message p h <> Undef NullDereference /\
     SafeChain_code file line function message code p h <> Undef NullDereference).
Proof.
  assert (HW : forall exception this, exists r, WrapException exception this = Ok r).
  { intros [origin_exception|w] this.
    - rewrite WrapException_contextual. eauto.
    - rewrite WrapException_other. eauto. }
  split; [reflexivity|]. split; [exact HW|].
  split; [|split; [|split; [|split]]].
  - intros message exception file line function. unfold Construct_wrap.
    destruct (HW exception
                (SetBaseFrame message 0 file line function Construct_default))
      as [r ->].
    simpl. eauto.
  - intros message code exception file line function. unfold Construct_code_wrap.
    destruct (HW exception
                (SetBaseFrame message code file line function Construct_default))
      as [r ->].
    simpl. eauto.
  - intros exception this. rewrite AppendException_eq. eauto.
  - intros this exception h. unfold AppendException_at.
    destruct (h !! this) as [self|]; [|discriminate].
    destruct (h !! exception) as [argument|]; [|discriminate].
    case_bool_decide; [discriminate|].
    rewrite AppendException_eq. discriminate.
  - intros file line function message code p h.
    unfold SafeChain, SafeChain_code.
    destruct p as [p|]; [|split; discriminate].
    destruct (h !! p) as [source|]; [|split; discriminate].
    rewrite !lookup_insert_eq, !AppendException_eq. split; discriminate.
Qed.

(** ** The default-constructed object *)

(** C10: a default-constructed object has an empty [what()], which is not
    the rendering ":0 | () | " of its empty base frame; its message, file and
    function are empty, its code and line are 0, it has no child frame and
    its detailed message is empty. *)
Theorem C10_default_constructed :
  what Construct_default = ""%string /\
  GetFrameMessage (base_frame_ Construct_default) = ":0 | () | "%string /\
  what Construct_default <> GetFrameMessage (base_frame_ Construct_default) /\
  Message Construct_default = ""%string /\
  File Construct_default = ""%string /\
  Function Construct_default = ""%string /\
  Code Construct_default = 0 /\
  Line Construct_default = 0 /\
  child_frames_ Construct_default = [] /\
  DetailedErrorMessage Construct_default = ""%string.
Proof. repeat split. discriminate. Qed.

(** * Further properties of the code *)

(** ** Renumbering and rendering of chains *)

Lemma imap_renumber_app_r (l1 l2 : list Frame) :
  imap renumber (l1 ++ imap renumber l2) = imap renumber (l1 ++ l2).
Proof.
  apply list_eq; intros i. rewrite !list_lookup_imap.
  destruct (decide (i < length l1)%nat) as [Hi|Hi].
  - rewrite !lookup_app_l by lia. reflexivity.
  - rewrite !lookup_app_r by lia. rewrite list_lookup_imap.
    destruct (l2 !! (i - length l1)%nat); reflexivity.
Qed.

Lemma imap_renumber_idemp (l : list Frame) :
  imap renumber (imap renumber l) = imap renumber l.
Proof. apply (imap_renumber_app_r [] l). Qed.

Lemma indented_lines_app (l1 l2 : list Frame) :
  indented_lines (l1 ++ l2) = indented_lines l1 +:+ indented_lines l2.
Proof.
  induction l1 as [|f l1 IH]; [reflexivity|].
  cbn [app indented_lines]. rewrite IH, !append_assoc. reflexivity.
Qed.

Lemma indented_lines_set_depth (g : nat -> Z) (l : list Frame) :
  indented_lines (imap (fun i => set_depth (g i)) l) = indented_lines l.
Proof. apply indented_lines_imap. intros i f. reflexivity. Qed.

Lemma DetailedErrorMessage_AppendException (A B : ContextualException) :
  exists A',
    AppendException B A = Ok A' /\
    DetailedErrorMessage A'
    = DetailedErrorMessage A +:+ newline_indent +:+ GetFrameMessage (base_frame_ B)
        +:+ indented_lines (child_frames_ B).
Proof.
  eexists. split; [apply AppendException_eq|].
  rewrite !DetailedErrorMessage_eq. cbn [error_message_ child_frames_ with_child_frames].
  rewrite (indented_lines_imap renumber) by (intros; reflexivity).
  rewrite indented_lines_app. cbn [indented_lines].
  rewrite !append_assoc. reflexivity.
Qed.

Lemma with_child_frames_twice (l l0 : list Frame) (e : ContextualException) :
  with_child_frames l (with_child_frames l0 e) = with_child_frames l e.
Proof. reflexivity. Qed.

Lemma with_child_frames_same (e : ContextualException) :
  with_child_frames (child_frames_ e) e = e.
Proof. destruct e. reflexivity. Qed.

(** X1: merging is associative: merging B into A and then C into A leaves
    A as merging C into B first and the result into A does. *)
Theorem X1_merge_associative (A B C : ContextualException) :
  (A1 ← AppendException B A; AppendException C A1)
  = (B1 ← AppendException C B; AppendException B1 A).
Proof.
  rewrite (AppendException_eq B A), (AppendException_eq C B).
  cbn [mbind res_bind]. rewrite !AppendException_eq.
  cbn [child_frames_ base_frame_ with_child_frames].
  rewrite with_child_frames_twice. do 2 f_equal.
  rewrite imap_renumber_app_l.
  change (child_frames_ A ++ base_frame_ B
            :: imap renumber (child_frames_ B ++ base_frame_ C :: child_frames_ C))
    with (child_frames_ A ++ [base_frame_ B]
            ++ imap renumber (child_frames_ B ++ base_frame_ C :: child_frames_ C)).
  rewrite (assoc_L (++) (child_frames_ A)), imap_renumber_app_r.
  rewrite <- !(assoc_L (++)). reflexivity.
Qed.

(** X2: the detailed message of a merge is the detailed message of the
    receiver, a line break with the indentation, and the detailed message of
    the merged error, when that one was made by a constructor that takes
    arguments. *)
Theorem X2_detailed_message_of_merge (A B : ContextualException) :
  reachable by_arguments B ->
  exists A',
    AppendException B A = Ok A' /\
    DetailedErrorMessage A'
    = DetailedErrorMessage A +:+ newline_indent +:+ DetailedErrorMessage B.
Proof.
  intros HB. destruct (DetailedErrorMessage_AppendException A B) as (A' & HA & Hd).
  exists A'. split; [exact HA|].
  rewrite Hd, (DetailedErrorMessage_eq B), (reachable_error_message B HB).
  reflexivity.
Qed.

Lemma X2_detailed_message_of_merge_witness :
  exists A',
    AppendException merged_twice sync_failed = Ok A' /\
    DetailedErrorMessage A'
    = "fs.cc:77 | Sync() | sync failed" +:+ newline_indent
        +:+ "main.cc:5 | Main() | init failed" +:+ newline_indent
        +:+ "db.cc:10 | Open() | open failed" +:+ newline_indent
        +:+ "io.cc:42 | Read() | [code=5] read failed".
Proof.
  destruct (X2_detailed_message_of_merge sync_failed merged_twice merged_twice_reachable)
    as (A' & HA & Hd).
  exists A'. split; [exact HA|]. rewrite Hd. reflexivity.
Defined.

(** X3: a default-constructed error has an empty detailed message, yet
    merged into another error it adds the line of its empty base frame,
    ":0 | () | ". *)
Theorem X3_merge_of_default_constructed (A : ContextualException) :
  DetailedErrorMessage Construct_default = ""%string /\
  exists A',
    AppendException Construct_default A = Ok A' /\
    DetailedErrorMessage A'
    = DetailedErrorMessage A +:+ newline_indent +:+ ":0 | () | ".
Proof.
  split; [reflexivity|].
  destruct (DetailedErrorMessage_AppendException A Construct_default) as (A' & HA & Hd).
  exists A'. split; [exact HA|]. rewrite Hd. reflexivity.
Qed.

(** X4: [NormalizeChildDepth] is idempotent and changes nothing but the
    depths of the child frames: their number and what they record, the base
    frame and the cached rendering stay. *)
Theorem X4_NormalizeChildDepth_idempotent (e : ContextualException) :
  NormalizeChildDepth (NormalizeChildDepth e) = NormalizeChildDepth e /\
  length (child_frames_ (NormalizeChildDepth e)) = length (child_frames_ e) /\
  content <$> child_frames_ (NormalizeChildDepth e) = content <$> child_frames_ e /\
  base_frame_ (NormalizeChildDepth e) = base_frame_ e /\
  error_message_ (NormalizeChildDepth e) = error_message_ e.
Proof.
  rewrite !NormalizeChildDepth_eq. cbn [child_frames_ with_child_frames].
  split; [|split; [|split; [|split]]].
  - rewrite imap_renumber_idemp. reflexivity.
  - apply length_imap.
  - apply content_imap_renumber.
  - reflexivity.
  - reflexivity.
Qed.

(** X5: the depth of a frame is never rendered: whatever depths the child
    frames are given, and so also after [NormalizeChildDepth], the detailed
    message is the same, each child line indented by four spaces. *)
Theorem X5_depth_is_not_rendered (e : ContextualException) (g : nat -> Z) :
  DetailedErrorMessage
    (with_child_frames (imap (fun i => set_depth (g i)) (child_frames_ e)) e)
  = DetailedErrorMessage e /\
  DetailedErrorMessage (NormalizeChildDepth e) = DetailedErrorMessage e /\
  forall f d, GetFrameMessage (set_depth d f) = GetFrameMessage f.
Proof.
  split; [|split].
  - rewrite !DetailedErrorMessage_eq. cbn [error_message_ child_frames_ with_child_frames].
    rewrite indented_lines_set_depth. reflexivity.
  - rewrite NormalizeChildDepth_eq, !DetailedErrorMessage_eq.
    cbn [error_message_ child_frames_ with_child_frames].
    rewrite (indented_lines_imap renumber) by (intros; reflexivity). reflexivity.
  - reflexivity.
Qed.

(** X6: an error reachable through the public interface is already
    normalised: [NormalizeChildDepth] leaves it as it is. *)
Theorem X6_reachable_is_normalised (o : origin) (e : ContextualException) :
  reachable o e -> NormalizeChildDepth e = e.
Proof.
  intros Hr. destruct (reachable_child_frames o e Hr) as [l Hl].
  rewrite NormalizeChildDepth_eq, Hl, imap_renumber_idemp, <- Hl.
  apply with_child_frames_same.
Qed.

Lemma X6_reachable_is_normalised_witness :
  NormalizeChildDepth merged_twice = merged_twice.
Proof.
  exact (X6_reachable_is_normalised by_arguments merged_twice merged_twice_reachable).
Defined.

(** X7: a merge into a reachable error leaves the child frames it has
    exactly as they are, depths included, and puts the merged frames behind
    them, numbered on from there. *)
Theorem X7_merge_appends (o : origin) (A B : ContextualException) :
  reachable o A ->
  exists A',
    AppendException B A = Ok A' /\
    child_frames_ A'
    = child_frames_ A
        ++ imap (fun i => renumber (length (child_frames_ A) + i))
             (base_frame_ B :: child_frames_ B).
Proof.
  intros Hr. eexists. split; [apply AppendException_eq|].
  cbn [child_frames_ with_child_frames]. rewrite imap_app. f_equal.
  destruct (reachable_child_frames o A Hr) as [l Hl].
  rewrite Hl. apply imap_renumber_idemp.
Qed.

Lemma X7_merge_appends_witness :
  exists A',
    AppendException sync_failed merged_twice = Ok A' /\
    child_frames_ A' = child_frames_ merged_twice ++ [renumber 2 (base_frame_ sync_failed)].
Proof.
  destruct (X7_merge_appends by_arguments merged_twice sync_failed merged_twice_reachable)
    as (A' & HA & Hc).
  exists A'. split; [exact HA|]. rewrite Hc. reflexivity.
Defined.

(** ** Chaining in place *)

Lemma SafeChain_code_at_object file line function message code p (h : heap) old :
  h !! p = Some old ->
  SafeChain_code file line function message code (Some p) h
  = Ok (Some p,
        <[p := with_child_frames
                 (imap renumber (base_frame_ old :: child_frames_ old))
                 (Construct_code message code file line function)]> h).
Proof.
  intros Hp. unfold SafeChain_code.
  rewrite Hp, lookup_insert_eq, AppendException_eq.
  cbn [mbind res_bind]. rewrite insert_insert_eq. reflexivity.
Qed.

Lemma SafeChain_eq_SafeChain_code file line function message p (h : heap) :
  SafeChain file line function message p h
  = SafeChain_code file line function message 0 p h.
Proof. reflexivity. Qed.

Lemma Construct_code_reachable_chained message code file line function old :
  reachable by_arguments
    (with_child_frames (imap renumber (base_frame_ old :: child_frames_ old))
       (Construct_code message code file line function)).
Proof.
  apply (reach_AppendException by_arguments
           (Construct_code message code file line function) old).
  - apply reach_Construct_code.
  - apply AppendException_eq.
Qed.

Lemma site_lines_app (l1 l2 : list chain_site) :
  site_lines (l1 ++ l2) = site_lines l1 +:+ site_lines l2.
Proof.
  induction l1 as [|s l1 IH]; [reflexivity|].
  cbn [app site_lines]. rewrite IH, !append_assoc. reflexivity.
Qed.

(** X8: [SafeChain] on a pointer to an error puts there what [Wrap], with
    the same message and place, makes of that error; likewise with a code. *)
Theorem X8_SafeChain_stores_the_wrapped_error file line function message code p
    (h : heap) (old : ContextualException) :
  h !! p = Some old ->
  (exists r, Wrap file line function message (contextual old) = Ok r /\
             SafeChain file line function message (Some p) h
             = Ok (Some p, <[p := r]> h)) /\
  (exists r, Wrap_code file line function message code (contextual old) = Ok r /\
             SafeChain_code file line function message code (Some p) h
             = Ok (Some p, <[p := r]> h)).
Proof.
  intros Hp. split.
  - eexists. split; [apply Construct_code_wrap_contextual|].
    rewrite (SafeChain_at_object _ _ _ _ _ _ old Hp). reflexivity.
  - eexists. split; [apply Construct_code_wrap_contextual|].
    rewrite (SafeChain_code_at_object _ _ _ _ _ _ _ old Hp). reflexivity.
Qed.

Lemma X8_SafeChain_stores_the_wrapped_error_witness :
  exists r,
    Wrap "main.cc" 5 "Main" "init failed" (contextual open_failed) = Ok r /\
    SafeChain "main.cc" 5 "Main" "init failed" (Some 1%nat) two_errors
    = Ok (Some 1%nat, <[1%nat := r]> two_errors).
Proof.
  destruct (X8_SafeChain_stores_the_wrapped_error
              "main.cc" 5 "Main" "init failed" 0 1%nat two_errors open_failed)
    as [Hw _]; [reflexivity|].
  exact Hw.
Defined.

(** X9: whenever [SafeChain] (with or without a code) returns, it returns
    the pointer it was given, the same locations hold objects as before, and
    every object but the one pointed to is as it was. *)
Theorem X9_SafeChain_frame file line function message code
    (p q : option loc) (h h' : heap) :
  SafeChain file line function message p h = Ok (q, h') \/
  SafeChain_code file line function message code p h = Ok (q, h') ->
  q = p /\
  dom h' = dom h /\
  forall l : loc, p <> Some l -> h' !! l = h !! l.
Proof.
  assert (Hgen : forall c,
            SafeChain_code file line function message c p h = Ok (q, h') ->
            q = p /\ dom h' = dom h /\
            forall l : loc, p <> Some l -> h' !! l = h !! l).
  { intros c Hc. destruct p as [p|].
    - destruct (h !! p) as [old|] eqn:Hp;
        [|unfold SafeChain_code in Hc; rewrite Hp in Hc; discriminate].
      rewrite (SafeChain_code_at_object _ _ _ _ _ _ _ old Hp) in Hc.
      apply Ok_inj in Hc. injection Hc as <- <-.
      split; [reflexivity|]. split.
      + rewrite dom_insert_L. apply (elem_of_dom_2 (D := gset nat)) in Hp.
        apply subseteq_union_1_L, singleton_subseteq_l, Hp.
      + intros l Hl. apply lookup_insert_ne. congruence.
    - apply Ok_inj in Hc. injection Hc as <- <-. repeat split. }
  intros [H|H]; [apply (Hgen 0)|apply (Hgen code)]; exact H.
Qed.

Lemma X9_SafeChain_frame_witness :
  exists h' : gmap nat ContextualException,
    SafeChain "main.cc" 5 "Main" "init failed" (Some 1%nat) two_errors
    = Ok (Some 1%nat, h') /\
    dom h' = dom two_errors /\ h' !! 0%nat = Some init_failed.
Proof.
  destruct (SafeChain "main.cc" 5 "Main" "init failed" (Some 1%nat) two_errors)
    as [[q h']|u] eqn:Hs; [|exfalso; vm_compute in Hs; discriminate].
  destruct (X9_SafeChain_frame "main.cc" 5 "Main" "init failed" 0
              (Some 1%nat) q two_errors h' (or_introl Hs)) as (-> & Hdom & Hrest).
  exists h'. split; [reflexivity|]. split; [exact Hdom|].
  rewrite Hrest by discriminate. reflexivity.
Defined.

Lemma DetailedErrorMessage_chained message code file line function old :
  DetailedErrorMessage
    (with_child_frames (imap renumber (base_frame_ old :: child_frames_ old))
       (Construct_code message code file line function))
  = GetFrameMessage (Frame_new message code file line function) +:+ newline_indent
      +:+ GetFrameMessage (base_frame_ old) +:+ indented_lines (child_frames_ old).
Proof.
  rewrite DetailedErrorMessage_eq. cbn [error_message_ child_frames_ with_child_frames].
  rewrite (indented_lines_imap renumber) by (intros; reflexivity).
  reflexivity.
Qed.

(** X10: chaining in place puts one line in front of the detailed message:
    after [SafeChain] with a code on an error made by a constructor that
    takes arguments, the detailed message is the summary of the new frame, a
    line break with the indentation, and the detailed message the error
    had. *)
Theorem X10_SafeChain_prepends_a_line file line function message code p
    (h : heap) (old : ContextualException) :
  h !! p = Some old ->
  reachable by_arguments old ->
  exists new,
    SafeChain_code file line function message code (Some p) h
    = Ok (Some p, <[p := new]> h) /\
    DetailedErrorMessage new
    = summary file line function code message +:+ newline_indent
        +:+ DetailedErrorMessage old.
Proof.
  intros Hp Hold. eexists. split; [apply (SafeChain_code_at_object _ _ _ _ _ _ _ old Hp)|].
  rewrite DetailedErrorMessage_chained, GetFrameMessage_summary.
  rewrite (DetailedErrorMessage_eq old), (reachable_error_message old Hold).
  reflexivity.
Qed.

Lemma X10_SafeChain_prepends_a_line_witness :
  exists new,
    SafeChain_code "app.cc" 9 "Run" "run failed" 3 (Some 0%nat)
      (<[0%nat := merged_twice]> two_errors)
    = Ok (Some 0%nat, <[0%nat := new]> (<[0%nat := merged_twice]> two_errors)) /\
    DetailedErrorMessage new
    = "app.cc:9 | Run() | [code=3] run failed" +:+ newline_indent
        +:+ "main.cc:5 | Main() | init failed" +:+ newline_indent
        +:+ "db.cc:10 | Open() | open failed" +:+ newline_indent
        +:+ "io.cc:42 | Read() | [code=5] read failed".
Proof.
  destruct (X10_SafeChain_prepends_a_line "app.cc" 9 "Run" "run failed" 3 0%nat
              (<[0%nat := merged_twice]> two_errors) merged_twice)
    as (new & Hs & Hd).
  - apply lookup_insert_eq.
  - exact merged_twice_reachable.
  - exists new. split; [exact Hs|]. rewrite Hd. reflexivity.
Defined.

(** X11: whatever error the pointer holds, default-constructed included,
    [SafeChain] replaces it by one with the given message, code and place as
    base frame and its summary as cached rendering, whose child frames record
    the base frame and the child frames of the old error, in this order; and
    the new error is one reachable through the public interface. *)
Theorem X11_SafeChain_result file line function message code p
    (h : heap) (old : ContextualException) :
  h !! p = Some old ->
  exists new,
    SafeChain_code file line function message code (Some p) h
    = Ok (Some p, <[p := new]> h) /\
    base_frame_ new = Frame_new message code file line function /\
    error_message_ new = summary file line function code message /\
    content <$> child_frames_ new = content <$> (base_frame_ old :: child_frames_ old) /\
    reachable by_arguments new.
Proof.
  intros Hp. eexists. split; [apply (SafeChain_code_at_object _ _ _ _ _ _ _ old Hp)|].
  split; [reflexivity|]. split.
  - cbn [error_message_ with_child_frames Construct_code AssignErrorMessage
           with_error_message].
    rewrite GetFrameMessage_summary. reflexivity.
  - split; [apply content_imap_renumber|apply Construct_code_reachable_chained].
Qed.

Lemma X11_SafeChain_result_witness :
  exists new,
    SafeChain_code "app.cc" 9 "Run" "run failed" 3 (Some 7%nat)
      (<[7%nat := Construct_default]> ∅)
    = Ok (Some 7%nat, <[7%nat := new]> (<[7%nat := Construct_default]> ∅)) /\
    error_message_ new = "app.cc:9 | Run() | [code=3] run failed"%string /\
    content <$> child_frames_ new = [(""%string, 0, ""%string, 0, ""%string)].
Proof.
  destruct (X11_SafeChain_result "app.cc" 9 "Run" "run failed" 3 7%nat
              (<[7%nat := Construct_default]> ∅) Construct_default)
    as (new & Hs & _ & Hm & Hc & _).
  - apply lookup_insert_eq.
  - exists new. split; [exact Hs|]. split; [rewrite Hm; reflexivity|].
    rewrite Hc. reflexivity.
Defined.

Lemma SafeChain_through_at_object (sites : list chain_site) p (h : heap) old :
  h !! p = Some old ->
  reachable by_arguments old ->
  exists new,
    SafeChain_through sites (Some p) h = Ok (Some p, <[p := new]> h) /\
    reachable by_arguments new /\
    DetailedErrorMessage new = site_lines (rev sites) +:+ DetailedErrorMessage old /\
    length (child_frames_ new) = (length sites + length (child_frames_ old))%nat.
Proof.
  revert h old. induction sites as [|s sites IH]; intros h old Hp Hold.
  - exists old. cbn [SafeChain_through]. rewrite (insert_id h p old Hp).
    repeat split. exact Hold.
  - cbn [SafeChain_through].
    rewrite (SafeChain_at_object _ _ _ _ _ _ old Hp). cbn [mbind res_bind].
    change (Construct (site_message s) (site_file s) (site_line s) (site_function s))
      with (Construct_code (site_message s) 0 (site_file s) (site_line s)
              (site_function s)).
    set (new1 := with_child_frames
                   (imap renumber (base_frame_ old :: child_frames_ old))
                   (Construct_code (site_message s) 0 (site_file s) (site_line s)
                      (site_function s))).
    assert (Hnew1 : reachable by_arguments new1)
      by apply Construct_code_reachable_chained.
    destruct (IH (<[p := new1]> h) new1 (lookup_insert_eq h p new1) Hnew1)
      as (new & Hs & Hr & Hd & Hn).
    exists new. rewrite Hs, insert_insert_eq. split; [reflexivity|].
    split; [exact Hr|]. split.
    + rewrite Hd. cbn [rev]. rewrite site_lines_app. cbn [site_lines].
      unfold new1.
      rewrite DetailedErrorMessage_chained, (DetailedErrorMessage_eq old),
        (reachable_error_message old Hold).
      rewrite !append_assoc. reflexivity.
    + rewrite Hn. unfold new1. cbn [child_frames_ with_child_frames].
      rewrite length_imap. cbn [length]. lia.
Qed.

(** X12: when an error made by a constructor that takes arguments is chained
    in place by a chain of callers, innermost first, its detailed message
    gets one line per caller in front, the outermost caller first, and its
    child frames grow by one per caller. *)
Theorem X12_SafeChain_through_callers (sites : list chain_site) p (h : heap)
    (old : ContextualException) :
  h !! p = Some old ->
  reachable by_arguments old ->
  exists new,
    SafeChain_through sites (Some p) h = Ok (Some p, <[p := new]> h) /\
    DetailedErrorMessage new = site_lines (rev sites) +:+ DetailedErrorMessage old /\
    length (child_frames_ new) = (length sites + length (child_frames_ old))%nat.
Proof.
  intros Hp Hold.
  destruct (SafeChain_through_at_object sites p h old Hp Hold)
    as (new & Hs & _ & Hd & Hn).
  exists new. repeat split; assumption.
Qed.

Lemma X12_SafeChain_through_callers_witness :
  exists new,
    SafeChain_through
      [mkChainSite "db.cc" 20 "Query" "query failed";
       mkChainSite "main.cc" 5 "Main" "init failed"]
      (Some 1%nat) two_errors
    = Ok (Some 1%nat, <[1%nat := new]> two_errors) /\
    DetailedErrorMessage new
    = "main.cc:5 | Main() | init failed" +:+ newline_indent
        +:+ "db.cc:20 | Query() | query failed" +:+ newline_indent
        +:+ "db.cc:10 | Open() | open failed" /\
    length (child_frames_ new) = 2%nat.
Proof.
  destruct (X12_SafeChain_through_callers
              [mkChainSite "db.cc" 20 "Query" "query failed";
               mkChainSite "main.cc" 5 "Main" "init failed"]
              1%nat two_errors open_failed)
    as (new & Hs & Hd & Hn).
  - reflexivity.
  - apply (reach_Construct "open failed" "db.cc" 10 "Open").
  - exists new. split; [exact Hs|]. split; [rewrite Hd; reflexivity|exact Hn].
Defined.

(** X13: through any chain of callers an empty slot stays empty and no
    object is touched. *)
Theorem X13_SafeChain_through_null (sites : list chain_site) (h : heap) :
  SafeChain_through sites None h = Ok (None, h).
Proof.
  induction sites as [|s sites IH]; [reflexivity|].
  cbn [SafeChain_through]. exact IH.
Qed.

(** ** What the wrapping functions keep and lose *)

(** X14: wrapping an error of the same kind leaves the message, code and
    place of the call as they were given, and the cached rendering is their
    summary alone: nothing of the wrapped error enters the base frame, its
    frames become the child frames. *)
Theorem X14_wrap_same_kind_base fl ln fn msg c (F : ContextualException) :
  exists r,
    Wrap_code fl ln fn msg c (contextual F) = Ok r /\
    Message r = msg /\ Code r = c /\ File r = fl /\ Line r = ln /\ Function r = fn /\
    error_message_ r = summary fl ln fn c msg /\
    content <$> child_frames_ r = content <$> (base_frame_ F :: child_frames_ F).
Proof.
  eexists. split; [apply Construct_code_wrap_contextual|].
  do 5 (split; [reflexivity|]). split.
  - cbn [error_message_]. apply GetFrameMessage_summary.
  - apply content_imap_renumber.
Qed.


(** X16: code 0 is "no code": the functions without a code do what the ones
    with a code do for code 0, and the rendering of code 0 has no code
    segment. *)
Theorem X16_code_zero_is_no_code fl ln fn msg (ex : std_exception) :
  Make fl ln fn msg = Make_code fl ln fn msg 0 /\
  Wrap fl ln fn msg ex = Wrap_code fl ln fn msg 0 ex /\
  (forall p (h : heap), SafeChain fl ln fn msg p h = SafeChain_code fl ln fn msg 0 p h) /\
  error_message_ (Make_code fl ln fn msg 0)
  = fl +:+ ":" +:+ show_int ln +:+ " | " +:+ fn +:+ "() | " +:+ msg.
Proof.
  split; [reflexivity|]. split; [reflexivity|]. split; [reflexivity|].
  unfold Make_code, Construct_code. cbn [AssignErrorMessage with_error_message
    error_message_ base_frame_ SetBaseFrame with_base_frame].
  rewrite GetFrameMessage_summary. reflexivity.
Qed.

(** X17: the code segment is not told apart from message text: a frame with
    a code other than 0 renders as the frame without a code whose message
    starts with the text of that segment. *)
Theorem X17_code_segment_is_ambiguous fl ln fn msg c :
  c <> 0 ->
  GetFrameMessage (Frame_new msg c fl ln fn)
  = GetFrameMessage (Frame_new ("[code=" +:+ show_int c +:+ "] " +:+ msg) 0 fl ln fn).
Proof.
  intros Hc. rewrite !GetFrameMessage_summary. unfold summary.
  cbn [file line function code message Frame_new].
  rewrite (bool_decide_eq_false_2 (c = 0)) by exact Hc.
  rewrite (bool_decide_eq_true_2 (0 = 0)) by reflexivity.
  rewrite !append_assoc. reflexivity.
Qed.

Lemma X17_code_segment_is_ambiguous_witness :
  GetFrameMessage (Frame_new "disk full" 28 "io.cc" 42 "Flush")
  = GetFrameMessage (Frame_new "[code=28] disk full" 0 "io.cc" 42 "Flush").
Proof.
  apply (X17_code_segment_is_ambiguous "io.cc" 42 "Flush" "disk full" 28). lia.
Defined.

(** X18: the separator is written whenever the message is not empty: an
    exception of another kind whose [what()] is empty leaves the message
    ending in ", ". *)
Theorem X18_wrap_empty_description fl ln fn msg c (w : string) :
  msg <> ""%string ->
  exception_what (other w) = ""%string ->
  exists r,
    Wrap_code fl ln fn msg c (other w) = Ok r /\
    Message r = msg +:+ ", ".
Proof.
  intros Hmsg Hw. eexists. split; [apply Construct_code_wrap_other|].
  unfold Message, folded_message. cbn [base_frame_ message set_message].
  rewrite (bool_decide_eq_false_2 _ Hmsg), Hw. reflexivity.
Qed.

Lemma X18_wrap_empty_description_witness :
  exists r,
    Wrap_code "io.cc" 7 "Flush" "flush failed" 4 (other "") = Ok r /\
    Message r = "flush failed, "%string.
Proof.
  apply (X18_wrap_empty_description "io.cc" 7 "Flush" "flush failed" 4 "").
  - discriminate.
  - reflexivity.
Defined.

(** ** The file name of the place of a call *)

Lemma strrchr_spec (c : ascii) (s : string) :
  c <> Ascii.zero ->
  match strrchr s c with
  | None => absent c s
  | Some p =>
      exists dir rest, s = dir +:+ String c rest /\ p = String c rest /\ absent c rest
  end.
Proof.
  intros Hc. apply Ascii.eqb_neq in Hc.
  induction s as [|a s IH]; cbn [strrchr].
  - rewrite Hc. exact I.
  - destruct (strrchr s c) as [p|].
    + destruct IH as (dir & rest & -> & -> & Hrest).
      exists (String a dir), rest. repeat split. exact Hrest.
    + destruct (Ascii.eqb a c) eqn:Hac.
      * apply Ascii.eqb_eq in Hac. subst a.
        exists EmptyString, s. repeat split. exact IH.
      * apply Ascii.eqb_neq in Hac. split; assumption.
Qed.

Lemma strrchr_absent (c : ascii) (s : string) :
  c <> Ascii.zero -> absent c s -> strrchr s c = None.
Proof.
  intros Hc Hs. apply Ascii.eqb_neq in Hc.
  induction s as [|a s IH]; cbn [strrchr].
  - rewrite Hc. reflexivity.
  - destruct Hs as [Hac Hs]. rewrite (IH Hs).
    apply Ascii.eqb_neq in Hac. rewrite Hac. reflexivity.
Qed.

Lemma strrchr_last (c : ascii) (dir name : string) :
  c <> Ascii.zero -> absent c name ->
  strrchr (dir +:+ String c name) c = Some (String c name).
Proof.
  intros Hc Hname. induction dir as [|a dir IH].
  - change ("" +:+ String c name) with (String c name). cbn [strrchr].
    rewrite (strrchr_absent c name Hc Hname), Ascii.eqb_refl. reflexivity.
  - rewrite append_cons. cbn [strrchr]. rewrite IH. reflexivity.
Qed.

Lemma separator_not_zero (windows : bool) : separator windows <> Ascii.zero.
Proof. destruct windows; vm_compute; discriminate. Qed.

Lemma FILENAME_eq (windows : bool) (FILE : string) :
  FILENAME windows FILE
  = match strrchr FILE (separator windows) with
    | Some p => next_char p
    | None => FILE
    end.
Proof. destruct windows; reflexivity. Qed.

Lemma FILENAME_absent (windows : bool) (FILE : string) :
  absent (separator windows) FILE -> FILENAME windows FILE = FILE.
Proof.
  intros H. rewrite FILENAME_eq.
  rewrite (strrchr_absent _ _ (separator_not_zero windows) H). reflexivity.
Qed.

Lemma FILENAME_cases (windows : bool) (FILE : string) :
  absent (separator windows) (FILENAME windows FILE) /\
  (absent (separator windows) FILE /\ FILENAME windows FILE = FILE \/
   exists dir, FILE = dir +:+ String (separator windows) (FILENAME windows FILE)).
Proof.
  rewrite FILENAME_eq.
  pose proof (strrchr_spec (separator windows) FILE (separator_not_zero windows)) as H.
  destruct (strrchr FILE (separator windows)) as [p|].
  - destruct H as (dir & rest & -> & -> & Hrest). cbn [next_char].
    split; [exact Hrest|]. right. exists dir. reflexivity.
  - split; [exact H|]. left. split; [exact H|reflexivity].
Qed.

(** X19: [__FILENAME__] is the part of [__FILE__] behind its last
    separator: it holds no separator, and either [__FILE__] holds none and
    is the file name, or [__FILE__] is some directory part, a separator and
    the file name.  Taking it again changes nothing. *)
Theorem X19_FILENAME_is_the_last_component (windows : bool) (FILE : string) :
  absent (separator windows) (FILENAME windows FILE) /\
  (absent (separator windows) FILE /\ FILENAME windows FILE = FILE \/
   exists dir, FILE = dir +:+ String (separator windows) (FILENAME windows FILE)) /\
  FILENAME windows (FILENAME windows FILE) = FILENAME windows FILE.
Proof.
  destruct (FILENAME_cases windows FILE) as [Habs Hcases].
  split; [exact Habs|]. split; [exact Hcases|].
  apply FILENAME_absent, Habs.
Qed.

(** X20: a directory part, a separator and a name that holds no separator
    give back the name, whatever the directory part holds; a path that ends
    in a separator gives the empty name. *)
Theorem X20_FILENAME_of_joined_path (windows : bool) (dir name : string) :
  absent (separator windows) name ->
  FILENAME windows (dir +:+ String (separator windows) name) = name.
Proof.
  intros Hname. rewrite FILENAME_eq.
  rewrite (strrchr_last _ dir name (separator_not_zero windows) Hname).
  reflexivity.
Qed.

Lemma X20_FILENAME_of_joined_path_witness :
  FILENAME false "/home/dev/src/io.cc" = "io.cc"%string /\
  FILENAME false "/home/dev/src/" = ""%string /\
  FILENAME true (String "C" (String ":" (String backslash "src/io.cc")))
  = "src/io.cc"%string.
Proof.
  split; [|split].
  - apply (X20_FILENAME_of_joined_path false "/home/dev/src" "io.cc").
    repeat split; vm_compute; discriminate.
  - apply (X20_FILENAME_of_joined_path false "/home/dev/src" ""). exact I.
  - apply (X20_FILENAME_of_joined_path true "C:" "src/io.cc").
    repeat split; vm_compute; discriminate.
Defined.


(** ** The choice between the chaining macros *)

(** X22: [SAFE_CHAIN_CONTEXTUAL_EXCEPTION_TO] chooses by the number of its
    arguments: the macro without a code for two, the macro with a code for
    three; with fewer than two nothing is chosen, and with more than three
    the fourth argument stands where the name of a macro should. *)
Theorem X22_chain_macro_choice {T : Type} (VA_ARGS : list T) :
  (CHOOSE_CHAIN_CONTEXTUAL_EXCEPTION_MACRO VA_ARGS
   = Some (inr CHAIN_CONTEXTUAL_EXCEPTION_WITHOUT_CODE) <-> length VA_ARGS = 2%nat) /\
  (CHOOSE_CHAIN_CONTEXTUAL_EXCEPTION_MACRO VA_ARGS
   = Some (inr CHAIN_CONTEXTUAL_EXCEPTION_WITH_CODE) <-> length VA_ARGS = 3%nat) /\
  (CHOOSE_CHAIN_CONTEXTUAL_EXCEPTION_MACRO VA_ARGS = None <-> (length VA_ARGS < 2)%nat) /\
  (forall a, CHOOSE_CHAIN_CONTEXTUAL_EXCEPTION_MACRO VA_ARGS = Some (inl a)
             <-> VA_ARGS !! 3%nat = Some a).
Proof.
  unfold CHOOSE_CHAIN_CONTEXTUAL_EXCEPTION_MACRO, CONTEXTUAL_GET_MACRO_ARGUMENTS_COUNT.
  destruct VA_ARGS as [|a1 [|a2 [|a3 [|a4 rest]]]]; cbn;
    repeat split; intros; try discriminate; try lia; try congruence.
Qed.
